(** * ThrowStream: a backtrace-like exception that accumulates text

    Shallow embedding of [ThrowStream.h].  The class has a single data
    member, the [std::string] [_desc]; every member function either appends
    to it or reads it.  Member functions that return [ThrowStream &]
    (that is, [*this]) are modelled as functions from the object before the
    call to the object after the call.

    Conventions.
    - A [std::string] is a [string] (a sequence of 8-bit characters).
    - A [char const *] is read as a C string: the characters before the
      first NUL.  [c_str] makes the cut, and every function of the class
      that hands out a [char const *] is modelled with it.  String literals
      are written as the characters they hold.
    - [unsigned long] values are natural numbers [N]; the class never
      computes with them, it only prints them in decimal.
    - Every [stringstream] of the class is a local, freshly constructed one:
      default formatting flags, width 0, classic locale.  It is modelled by
      the characters written to it so far.
    - The preprocessor symbol [THROWSTREAM_EXCEPTIONSOURCE] is a boolean
      fixed for the whole build: a [Variable] of the section below. *)

From Stdlib Require Import Strings.String Strings.Ascii.
From Stdlib Require Import NArith ZArith List Bool Lia.
From Stdlib Require Import Numbers.DecimalString Numbers.DecimalN.
Import ListNotations.

Open Scope string_scope.

(** ** C strings *)

(** The terminator of a C string. *)
Definition NUL : ascii := "000"%char.

(** [s.c_str()] read through the [char const *] it returns: the characters
    of [s] before the first NUL. *)
Fixpoint c_str (s : string) : string :=
  match s with
  | EmptyString => EmptyString
  | String c s' => if Ascii.eqb c NUL then EmptyString else String c (c_str s')
  end.

(** Whether [s] holds no NUL, so that nothing of it is lost as a C string. *)
Fixpoint nul_free (s : string) : bool :=
  match s with
  | EmptyString => true
  | String c s' => negb (Ascii.eqb c NUL) && nul_free s'
  end.

(** ** Streams *)

(** [std::stringstream]: the characters inserted so far ([ss.str()]). *)
Record stringstream : Type := mkStringstream { str : string }.

(** [stringstream ss;] *)
Definition stringstream_new : stringstream := mkStringstream "".

(** Types with a stream inserter [os << x]: [insert_text x] is the text
    that the inserter writes to a stream in its default state. *)
Class Insertable (T : Type) : Type := insert_text : T -> string.

(** [os << s] for a [std::string]: all its characters.  A string literal
    or a [char const *] is passed as the characters of its C string. *)
#[export] Instance Insertable_string : Insertable string :=
  fun s => s.

(** [os << c] for a [char]. *)
#[export] Instance Insertable_char : Insertable ascii :=
  fun c => String c "".

(** [os << n] for an [unsigned long]: decimal digits, no sign, no padding. *)
#[export] Instance Insertable_ulong : Insertable N :=
  fun n => NilZero.string_of_uint (N.to_uint n).

(** [os << i] for an [int] or [long]: decimal digits, [-] when negative. *)
#[export] Instance Insertable_int : Insertable Z :=
  fun i => NilZero.string_of_int (Z.to_int i).

(** [os << b] for a [bool] ([boolalpha] is off by default). *)
#[export] Instance Insertable_bool : Insertable bool :=
  fun b => if b then "1" else "0".

(** [ss << x] on a [stringstream]. *)
Definition ss_insert {T : Type} `{Insertable T}
    (ss : stringstream) (x : T) : stringstream :=
  mkStringstream (str ss ++ insert_text x).

Declare Scope stream_scope.
Delimit Scope stream_scope with stream.
Notation "ss <<< x" := (ss_insert ss x)
  (at level 45, left associativity) : stream_scope.

(** ** The class *)

(** [class ThrowStream : public exception { string _desc; ... }] *)
Record ThrowStream : Type := mkThrowStream { _desc : string }.

(** A [ThrowStream] whose [_desc] is still the default-constructed empty
    string: the state of the object when a constructor body starts. *)
Definition ThrowStream_uninit : ThrowStream := mkThrowStream "".

(** [ostream & operator<<(ostream & os, const ThrowStream & ts)]
    (lines 230-234): [os << ts._desc]. *)
#[export] Instance Insertable_ThrowStream : Insertable ThrowStream :=
  fun ts => insert_text (_desc ts).

(** A [const exception &]: either (a reference to) a [ThrowStream], for
    which [dynamic_cast<const ThrowStream *>] succeeds, or any other
    [std::exception], of which only [what()] is visible; [what_] is the
    array its [what()] points to. *)
Inductive exception : Type :=
| Ex_ThrowStream (ts : ThrowStream)
| Ex_other (what_ : string).

(** [dynamic_cast<const ThrowStream *>(&ex)]; [None] is the null pointer. *)
Definition dynamic_cast_ThrowStream (ex : exception) : option ThrowStream :=
  match ex with
  | Ex_ThrowStream ts => Some ts
  | Ex_other _ => None
  end.

(** [char const * what() const throw()] (lines 130-133): [_desc.c_str()],
    the message a caller reads. *)
Definition what (this : ThrowStream) : string := c_str (_desc this).

(** The same call as a state transformer: result and object afterwards.
    The member is [const] and only reads [_desc]. *)
Definition call_what (this : ThrowStream) : string * ThrowStream :=
  (what this, this).

(** [ex.what()] through the virtual call on a [const exception &]: a
    C string in either case. *)
Definition exception_what (ex : exception) : string :=
  match ex with
  | Ex_ThrowStream ts => what ts
  | Ex_other m => c_str m
  end.

(** [template<typename T> ThrowStream & operator<<(const T & rhs)]
    (lines 142-149). *)
Definition operator_lshift {T : Type} `{Insertable T}
    (this : ThrowStream) (rhs : T) : ThrowStream :=
  let ss := stringstream_new in
  let ss := (ss <<< rhs)%stream in
  mkThrowStream (_desc this ++ str ss).

Notation "ts << x" := (operator_lshift ts x)
  (at level 45, left associativity) : stream_scope.

Section Build.

(** [true] when the build defines [THROWSTREAM_EXCEPTIONSOURCE]. *)
Variable THROWSTREAM_EXCEPTIONSOURCE : bool.

(** [ThrowStream & Append(line, file, function)] (lines 77-90). *)
Definition Append (this : ThrowStream)
    (line : N) (file function : string) : ThrowStream :=
  let ss := stringstream_new in
  let ss := (ss <<< "010"%char)%stream in
  let ss :=
    if THROWSTREAM_EXCEPTIONSOURCE
    then (ss <<< "( " <<< file <<< ":" <<< line <<< " , in "
             <<< function <<< "() )    ->  ")%stream
    else ss in
  mkThrowStream (_desc this ++ str ss).

(** [ThrowStream & Append(const exception & ex, line, file, function)]
    (lines 102-121). *)
Definition Append_exception (this : ThrowStream) (ex : exception)
    (line : N) (file function : string) : ThrowStream :=
  let this :=
    match dynamic_cast_ThrowStream ex with
    | Some pts => mkThrowStream (_desc this ++ _desc pts)
    | None => (Append this line file function << exception_what ex)%stream
    end in
  Append this line file function.

(** [ThrowStream(line, file, function)] (lines 47-50). *)
Definition ThrowStream_new (line : N) (file function : string)
    : ThrowStream :=
  Append ThrowStream_uninit line file function.

(** [ThrowStream(const exception & ex, line, file, function)]
    (lines 60-63). *)
Definition ThrowStream_new_exception (ex : exception)
    (line : N) (file function : string) : ThrowStream :=
  Append_exception ThrowStream_uninit ex line file function.

End Build.

(** ** Derived notions used to state the properties *)

(** The newline character and the one-character string holding it. *)
Definition newline : ascii := "010"%char.
Definition nl : string := String newline "".

(** The location marker of the frame [(line, file, function)] as the
    documentation of the format gives it, spelled out character by
    character and independently of the code: a newline and, in a build with
    location detail, [( <file>:<line> , in <function>() )    ->  ] with the
    line in decimal.  [Append_desc] below compares it with what [Append]
    writes. *)
Definition location_marker (SRC : bool)
    (line : N) (file function : string) : string :=
  nl ++ (if SRC
         then "( " ++ file ++ ":" ++ insert_text line ++ " , in "
              ++ function ++ "() )    ->  "
         else "").

(** A value of any insertable type, as passed to [operator<<]. *)
Inductive streamed : Type :=
| Streamed (T : Type) (ins : Insertable T) (x : T).

Definition text_of (v : streamed) : string :=
  match v with Streamed T ins x => @insert_text T ins x end.

(** [this << v] for a packed value. *)
Definition lshift_streamed (this : ThrowStream) (v : streamed)
    : ThrowStream :=
  match v with Streamed T ins x => @operator_lshift T ins this x end.

(** [this << v1 << v2 << ... << vn]. *)
Definition lshift_all (this : ThrowStream) (vs : list streamed)
    : ThrowStream :=
  fold_left lshift_streamed vs this.

(** [textOf(v1) + textOf(v2) + ... + textOf(vn)]. *)
Fixpoint texts_of (vs : list streamed) : string :=
  match vs with
  | [] => ""
  | v :: vs' => text_of v ++ texts_of vs'
  end.

(** The calls of the public interface on an existing object. *)
Inductive operation : Type :=
| Op_Append (line : N) (file function : string)
| Op_Append_exception (ex : exception) (line : N) (file function : string)
| Op_lshift (v : streamed)
| Op_what.

(** The object after one call. *)
Definition run (SRC : bool) (this : ThrowStream) (op : operation)
    : ThrowStream :=
  match op with
  | Op_Append l f fn => Append SRC this l f fn
  | Op_Append_exception ex l f fn => Append_exception SRC this ex l f fn
  | Op_lshift v => lshift_streamed this v
  | Op_what => snd (call_what this)
  end.

(** The objects a program can hold.  The class has no default constructor;
    copy construction and assignment yield the value of an existing object. *)
Inductive reachable (SRC : bool) : ThrowStream -> Prop :=
| reach_new : forall l f fn,
    reachable SRC (ThrowStream_new SRC l f fn)
| reach_new_chain : forall other l f fn,
    reachable SRC other ->
    reachable SRC (ThrowStream_new_exception SRC (Ex_ThrowStream other) l f fn)
| reach_new_foreign : forall m l f fn,
    reachable SRC (ThrowStream_new_exception SRC (Ex_other m) l f fn)
| reach_Append : forall this l f fn,
    reachable SRC this ->
    reachable SRC (Append SRC this l f fn)
| reach_Append_chain : forall this other l f fn,
    reachable SRC this -> reachable SRC other ->
    reachable SRC (Append_exception SRC this (Ex_ThrowStream other) l f fn)
| reach_Append_foreign : forall this m l f fn,
    reachable SRC this ->
    reachable SRC (Append_exception SRC this (Ex_other m) l f fn)
| reach_lshift : forall this v,
    reachable SRC this ->
    reachable SRC (lshift_streamed this v).

(** [began_at SRC l f fn ts]: the chain held by [ts] began at the frame
    [(l, f, fn)].  A chain begins where an object is built from a location
    or from an exception that is no [ThrowStream]; an object built from a
    [ThrowStream] continues that chain; every later call continues the
    chain of the object it is made on. *)
Inductive began_at (SRC : bool) (l : N) (f fn : string)
    : ThrowStream -> Prop :=
| began_new :
    began_at SRC l f fn (ThrowStream_new SRC l f fn)
| began_new_foreign : forall m,
    began_at SRC l f fn (ThrowStream_new_exception SRC (Ex_other m) l f fn)
| began_new_chain : forall other l' f' fn',
    began_at SRC l f fn other ->
    began_at SRC l f fn
      (ThrowStream_new_exception SRC (Ex_ThrowStream other) l' f' fn')
| began_Append : forall this l' f' fn',
    began_at SRC l f fn this ->
    began_at SRC l f fn (Append SRC this l' f' fn')
| began_Append_exception : forall this ex l' f' fn',
    began_at SRC l f fn this ->
    began_at SRC l f fn (Append_exception SRC this ex l' f' fn')
| began_lshift : forall this v,
    began_at SRC l f fn this ->
    began_at SRC l f fn (lshift_streamed this v).

(** The frame-annotation calls: the two [Append] overloads. *)
Inductive annotation : Type :=
| Ann_Append (line : N) (file function : string)
| Ann_Append_exception (ex : exception) (line : N) (file function : string).

Definition annotate (SRC : bool) (this : ThrowStream) (a : annotation)
    : ThrowStream :=
  match a with
  | Ann_Append l f fn => Append SRC this l f fn
  | Ann_Append_exception ex l f fn => Append_exception SRC this ex l f fn
  end.

(** The marker of the frame an annotation names. *)
Definition annotation_marker (SRC : bool) (a : annotation) : string :=
  match a with
  | Ann_Append l f fn => location_marker SRC l f fn
  | Ann_Append_exception _ l f fn => location_marker SRC l f fn
  end.

(** The text an annotation takes over from another error, if any. *)
Definition annotation_merged (a : annotation) : string :=
  match a with
  | Ann_Append _ _ _ => ""
  | Ann_Append_exception ex _ _ _ => exception_what ex
  end.

(** "The call appends exactly one location marker": besides the merged
    text, the only thing added to the buffer is the marker, once, on
    either side of the merged text. *)
Definition appends_one_marker (SRC : bool)
    (this : ThrowStream) (a : annotation) : Prop :=
  _desc (annotate SRC this a)
    = _desc this ++ annotation_merged a ++ annotation_marker SRC a
  \/
  _desc (annotate SRC this a)
    = _desc this ++ annotation_marker SRC a ++ annotation_merged a.

(** ** Measures on messages *)

(** How often the character [c] occurs in [s]. *)
Fixpoint count_char (c : ascii) (s : string) : nat :=
  match s with
  | EmptyString => 0
  | String x s' => (if Ascii.eqb x c then 1 else 0) + count_char c s'
  end.

(** The number of line breaks of a message. *)
Definition line_breaks (s : string) : nat := count_char newline s.

(** Whether [c] occurs in [s]. *)
Fixpoint has_char (c : ascii) (s : string) : bool :=
  match s with
  | EmptyString => false
  | String x s' => Ascii.eqb x c || has_char c s'
  end.

(** The decimal digits. *)
Definition is_digit (c : ascii) : bool :=
  match c with
  | "0" | "1" | "2" | "3" | "4" | "5" | "6" | "7" | "8" | "9" => true
  | _ => false
  end%char.

(** An operation with its location arguments blanked. *)
Definition erase_location (op : operation) : operation :=
  match op with
  | Op_Append _ _ _ => Op_Append 0 "" ""
  | Op_Append_exception ex _ _ _ => Op_Append_exception ex 0 "" ""
  | Op_lshift v => Op_lshift v
  | Op_what => Op_what
  end.

(** ** Throwing and catching *)

(** The result of evaluating an expression or running a block: a value, or
    an exception that left it.  Everything the program throws derives from
    [std::exception]. *)
Inductive outcome (A : Type) : Type :=
| Returned (a : A)
| Thrown (ex : exception).

Arguments Returned {A} a.
Arguments Thrown {A} ex.

(** Sequencing: the second part runs only if the first did not throw. *)
Definition and_then {A B : Type} (x : outcome A) (k : A -> outcome B)
    : outcome B :=
  match x with
  | Returned a => k a
  | Thrown ex => Thrown ex
  end.

Notation "x <- c ;; k" := (and_then c (fun x => k))
  (at level 61, c at next level, right associativity).

(** [try { body } catch(exception & ex) { handler }] *)
Definition try_catch {A : Type} (body : outcome A)
    (handler : exception -> outcome A) : outcome A :=
  match body with
  | Returned a => Returned a
  | Thrown ex => handler ex
  end.

(** ** The macros of [ThrowStream.h] (lines 161-221)

    [line], [file] and [function] stand for [__LINE__], [__FILE__] and
    [__FUNCTION__] at the place of use.  [throw] binds weaker than [<<], so
    in [THROWSTREAM << a << b] everything streamed is part of the object
    thrown: the two throwing macros take the streamed values [vs]. *)

(** [THROWSTREAM << v1 << ... << vn] (line 161). *)
Definition THROWSTREAM {A : Type} (SRC : bool)
    (line : N) (file function : string) (vs : list streamed) : outcome A :=
  Thrown (Ex_ThrowStream
            (lshift_all (ThrowStream_new SRC line file function) vs)).

(** [THROWSTREAMAPPEND(ex) << v1 << ... << vn] (line 172). *)
Definition THROWSTREAMAPPEND {A : Type} (SRC : bool) (ex : exception)
    (line : N) (file function : string) (vs : list streamed) : outcome A :=
  Thrown (Ex_ThrowStream
            (lshift_all
               (ThrowStream_new_exception SRC ex line file function) vs)).

(** [THROWSTREAMOBJ(ex)] (line 186): the object it declares. *)
Definition THROWSTREAMOBJ (SRC : bool)
    (line : N) (file function : string) : ThrowStream :=
  ThrowStream_new SRC line file function.

(** [THROWSTREAMOBJAPPEND(ex)] (line 199). *)
Definition THROWSTREAMOBJAPPEND (SRC : bool) (ex : ThrowStream)
    (line : N) (file function : string) : ThrowStream :=
  Append SRC ex line file function.

(** [THROWSTREAMOBJAPPENDCOPY(ex, ey)] (line 210). *)
Definition THROWSTREAMOBJAPPENDCOPY (SRC : bool) (ex : ThrowStream)
    (ey : exception) (line : N) (file function : string) : ThrowStream :=
  Append_exception SRC ex ey line file function.

(** [THROWSTREAMOBJCOPY(ex, ey)] (line 221): the object it declares. *)
Definition THROWSTREAMOBJCOPY (SRC : bool) (ey : exception)
    (line : N) (file function : string) : ThrowStream :=
  ThrowStream_new_exception SRC ey line file function.

(** ** The example program [ThrowStream_example.cpp] *)

(** What the program takes from the C++ implementation: the type [double]
    with the operations the program uses, and the name of the source file
    as the compiler was given it.  Nothing is assumed about the arithmetic.
    [__FILE__] is a string literal and the inserter of [double] writes
    digits, a sign, a point and an exponent: neither holds a NUL. *)
Class Platform : Type := {
  double : Type;
  double_1_0 : double;                          (* the literal [1.0] *)
  double_of_int : Z -> double;                  (* [double(i)] *)
  int_of_double : double -> Z;                  (* a [double] passed as [int] *)
  double_div : double -> double -> double;      (* [x / y] *)
  double_mul : double -> double -> double;      (* [x * y] *)
  Insertable_double :: Insertable double;       (* [os << x] *)
  source_file : string;                         (* [__FILE__] *)
  source_file_c_string : nul_free source_file = true;
  double_text_c_string : forall x : double, nul_free (insert_text x) = true
}.

(** [std::ostream], as far as the program uses it: the characters written. *)
Definition ostream : Type := stringstream.

(** A [stringstream] after [ss >> i]: the value read and the state bits the
    program looks at. *)
Record extraction : Type := mkExtraction {
  value : Z;
  bad : bool;
  fail : bool;
  eof : bool
}.

(** [ss.bad() || ss.fail() || !ss.eof()] (lines 59 and 65). *)
Definition unusable (ss : extraction) : bool :=
  bad ss || fail ss || negb (eof ss).

Section Example_program.

Context {P : Platform}.
Variable SRC : bool.

(** [double Inverse(int i)] (lines 18-24). *)
Definition Inverse (i : Z) : outcome double :=
  if (i =? 0)%Z
  then THROWSTREAM SRC 21 source_file "Inverse"
         [Streamed string _ "Error: I can't take the inverse of 0!"]
  else Returned (double_div double_1_0 (double_of_int i)).

(** [double MultiplyInverse(double a, int b)] (lines 26-37).  The two
    operands of [*] are evaluated in an order the compiler chooses:
    [left_first] says which. *)
Definition MultiplyInverse (left_first : bool) (a : double) (b : Z)
    : outcome double :=
  try_catch
    (if left_first
     then x <- Inverse (int_of_double a) ;;
          y <- Inverse b ;;
          Returned (double_mul x y)
     else y <- Inverse b ;;
          x <- Inverse (int_of_double a) ;;
          Returned (double_mul x y))
    (fun ex =>
       THROWSTREAMAPPEND SRC ex 34 source_file "MultiplyInverse"
         [Streamed string _ "Called from MultiplyInverse: a = ";
          Streamed double _ a;
          Streamed string _ " b = ";
          Streamed Z _ b]).

(** The [try] block of [main] (lines 44-74).  [ssa] and [ssb] are the two
    [stringstream]s after [ssa >> a] and [ssb >> b].  In the last statement
    the compiler may call [MultiplyInverse] before or after it writes the
    text in front of it: [text_first] says which. *)
Definition main_try (left_first text_first : bool) (ssa ssb : extraction)
    (cout : ostream) : outcome unit * ostream :=
  let cout :=
    (cout <<< (nl ++ nl
               ++ "Enter two integers and I will calculate (1/a)*(1/b)"
               ++ nl))%stream in
  let cout := (cout <<< (nl ++ "Enter an integer (a) :> "))%stream in
  let cout := (cout <<< (nl ++ "Enter an integer (b) :> "))%stream in
  let error := false in
  let ts :=
    (THROWSTREAMOBJ SRC 53 source_file "main"
       << "Error parsing your numbers!")%stream in
  let a := value ssa in
  let b := value ssb in
  let '(error, ts) :=
    if unusable ssa
    then (true,
          (THROWSTREAMOBJAPPEND SRC ts 62 source_file "main"
             << "Error parsing integer 'a': bad, fail, eof = "
             << bad ssa << fail ssa << eof ssa)%stream)
    else (error, ts) in
  let '(error, ts) :=
    if unusable ssb
    then (true,
          (THROWSTREAMOBJAPPEND SRC ts 68 source_file "main"
             << "Error parsing integer 'b': bad, fail, eof = "
             << bad ssb << fail ssb << eof ssb)%stream)
    else (error, ts) in
  if error
  then (Thrown (Ex_ThrowStream ts), cout)
  else
    match MultiplyInverse left_first (double_of_int a) b with
    | Returned d =>
        (Returned tt,
         (cout <<< (nl ++ nl ++ "(1/a)*(1/b) = ") <<< d <<< (nl ++ nl))%stream)
    | Thrown ex =>
        (Thrown ex,
         if text_first
         then (cout <<< (nl ++ nl ++ "(1/a)*(1/b) = "))%stream
         else cout)
    end.

(** [int main(int argc, char ** argv)] (lines 40-82): the exit code and
    everything written to [cout]. *)
Definition main (left_first text_first : bool) (ssa ssb : extraction)
    (cout : ostream) : Z * ostream :=
  match main_try left_first text_first ssa ssb cout with
  | (Returned _, cout) => (0%Z, cout)
  | (Thrown ex, cout) =>
      (0%Z,
       (cout <<< (nl ++ nl ++ "Exception! what() = ")
             <<< exception_what ex <<< (nl ++ nl))%stream)
  end.

End Example_program.

(** The text [main] writes before it looks at its input. *)
Definition prompts : string :=
  (nl ++ nl ++ "Enter two integers and I will calculate (1/a)*(1/b)" ++ nl)
  ++ (nl ++ "Enter an integer (a) :> ")
  ++ (nl ++ "Enter an integer (b) :> ").

(** The report [main] builds for a stream it cannot use. *)
Definition parse_report (SRC : bool) (file : string) (line : N)
    (name : string) (ss : extraction) : string :=
  if unusable ss
  then location_marker SRC line file "main"
       ++ "Error parsing integer '" ++ name ++ "': bad, fail, eof = "
       ++ insert_text (bad ss) ++ insert_text (fail ss)
       ++ insert_text (eof ss)
  else "".

(** The backtrace of a division by zero as [Inverse] throws it. *)
Definition inverse_trace {P : Platform} (SRC : bool) : string :=
  location_marker SRC 21 source_file "Inverse"
  ++ "Error: I can't take the inverse of 0!".

(** The same backtrace after it passed through [MultiplyInverse]. *)
Definition multiply_inverse_trace {P : Platform} (SRC : bool)
    (a : double) (b : Z) : string :=
  inverse_trace SRC
  ++ location_marker SRC 34 source_file "MultiplyInverse"
  ++ "Called from MultiplyInverse: a = " ++ insert_text a
  ++ " b = " ++ insert_text b.

(** The object [MultiplyInverse] throws once [Inverse] has thrown. *)
Definition rethrown {P : Platform} (SRC : bool) (a : double) (b : Z)
    : ThrowStream :=
  lshift_all
    (ThrowStream_new_exception SRC
       (Ex_ThrowStream
          (lshift_all (ThrowStream_new SRC 21 source_file "Inverse")
             [Streamed string _ "Error: I can't take the inverse of 0!"]))
       34 source_file "MultiplyInverse")
    [Streamed string _ "Called from MultiplyInverse: a = ";
     Streamed double _ a;
     Streamed string _ " b = ";
     Streamed Z _ b].

(** Exact fractions in place of binary floating point, written as
    numerator [/] denominator: the numbers of the platform the model is
    run on below. *)
Definition fraction : Type := (Z * Z)%type.

#[export] Instance Insertable_fraction : Insertable fraction :=
  fun q => insert_text (fst q) ++ "/" ++ insert_text (snd q).

(** ** Strings *)

Lemma append_nil_r (s : string) : s ++ "" = s.
Proof. induction s as [|c s IH]; simpl; [reflexivity | now rewrite IH]. Qed.

Lemma append_assoc (a b c : string) : (a ++ b) ++ c = a ++ (b ++ c).
Proof. induction a as [|x a IH]; simpl; [reflexivity | now rewrite IH]. Qed.

Lemma prefix_append (s t : string) : prefix s (s ++ t) = true.
Proof.
  induction s as [|c s IH]; simpl.
  - now destruct t.
  - destruct (ascii_dec c c) as [_|ne]; [exact IH | now elim ne].
Qed.

Create Rewrite HintDb strings.
#[export] Hint Rewrite append_assoc append_nil_r : strings.

Lemma length_append (s t : string) :
  String.length (s ++ t) = String.length s + String.length t.
Proof. induction s as [|c s IH]; simpl; [reflexivity | now rewrite IH]. Qed.

Lemma append_inv_tail (t : string) : forall a b : string,
  a ++ t = b ++ t -> a = b.
Proof.
  induction a as [|x a IH]; intros [|y b] E; simpl in E.
  - reflexivity.
  - apply (f_equal String.length) in E. simpl in E.
    rewrite length_append in E. lia.
  - apply (f_equal String.length) in E. simpl in E.
    rewrite length_append in E. lia.
  - injection E as -> E. f_equal. now apply IH.
Qed.

Lemma count_char_append (c : ascii) (s t : string) :
  count_char c (s ++ t) = count_char c s + count_char c t.
Proof.
  induction s as [|x s IH]; simpl; [reflexivity | rewrite IH; lia].
Qed.

Lemma has_char_append (c : ascii) (s t : string) :
  has_char c (s ++ t) = (has_char c s || has_char c t)%bool.
Proof.
  induction s as [|x s IH]; simpl; [reflexivity|].
  now rewrite IH, Bool.orb_assoc.
Qed.

Lemma has_char_count (c : ascii) (s : string) :
  has_char c s = false -> count_char c s = 0.
Proof.
  induction s as [|x s IH]; simpl; [reflexivity|].
  destruct (Ascii.eqb x c); simpl; [discriminate | exact IH].
Qed.

(** Two strings cut at the last occurrence of [c] agree piecewise. *)
Lemma split_at_last (c : ascii) (r r' : string) :
  has_char c r = false -> has_char c r' = false ->
  forall a a' : string,
    a ++ String c r = a' ++ String c r' -> a = a' /\ r = r'.
Proof.
  intros Hr Hr'.
  induction a as [|x a IH]; intros [|y a'] E; simpl in E.
  - injection E as E. now split.
  - injection E as _ E. rewrite E, has_char_append in Hr. simpl in Hr.
    rewrite Ascii.eqb_refl, Bool.orb_true_r in Hr. discriminate.
  - injection E as _ E. rewrite <- E, has_char_append in Hr'. simpl in Hr'.
    rewrite Ascii.eqb_refl, Bool.orb_true_r in Hr'. discriminate.
  - injection E as -> E. destruct (IH a' E) as [-> ->]. now split.
Qed.

(** ** C strings *)

Lemma nul_free_has_char (s : string) :
  nul_free s = negb (has_char NUL s).
Proof.
  induction s as [|c s IH]; cbn [nul_free has_char]; [reflexivity|].
  now rewrite IH, Bool.negb_orb.
Qed.

Lemma nul_free_append (s t : string) :
  nul_free (s ++ t) = (nul_free s && nul_free t)%bool.
Proof.
  induction s as [|c s IH]; cbn [nul_free append]; [reflexivity|].
  now rewrite IH, Bool.andb_assoc.
Qed.

(** A string without NUL is its own C string. *)
Lemma c_str_nul_free (s : string) : nul_free s = true -> c_str s = s.
Proof.
  induction s as [|c s IH]; cbn [nul_free c_str]; [reflexivity|].
  destruct (Ascii.eqb c NUL); cbn [negb andb]; [discriminate|].
  intros H. now rewrite IH.
Qed.

(** A NUL-free front part survives the cut; what follows is cut on its
    own. *)
Lemma c_str_append (s t : string) :
  nul_free s = true -> c_str (s ++ t) = s ++ c_str t.
Proof.
  induction s as [|c s IH]; cbn [nul_free c_str append]; [reflexivity|].
  destruct (Ascii.eqb c NUL); cbn [negb andb]; [discriminate|].
  intros H. now rewrite IH.
Qed.

(** Nothing after the first NUL is read. *)
Lemma c_str_cut (s t : string) :
  nul_free s = false -> c_str (s ++ t) = c_str s.
Proof.
  induction s as [|c s IH]; cbn [nul_free c_str append]; [discriminate|].
  destruct (Ascii.eqb c NUL); cbn [negb andb]; [reflexivity|].
  intros H. now rewrite IH.
Qed.

Lemma nul_free_c_str (s : string) : nul_free (c_str s) = true.
Proof.
  induction s as [|c s IH]; cbn [c_str]; [reflexivity|].
  destruct (Ascii.eqb c NUL) eqn:E; [reflexivity|].
  cbn [nul_free]. now rewrite E, IH.
Qed.

(** ** The decimal text of a number *)

Lemma digit_neq (c x : ascii) :
  is_digit c = false -> is_digit x = true -> Ascii.eqb x c = false.
Proof.
  intros Hc Hx. apply Ascii.eqb_neq. intros ->. congruence.
Qed.

Lemma digits_only_uint (c : ascii) (d : Decimal.uint) :
  is_digit c = false -> has_char c (NilEmpty.string_of_uint d) = false.
Proof.
  intros Hc.
  induction d as [|d IH|d IH|d IH|d IH|d IH|d IH|d IH|d IH|d IH|d IH];
    cbn [NilEmpty.string_of_uint has_char];
    [reflexivity | rewrite IH, (digit_neq c _ Hc) by reflexivity ..];
    reflexivity.
Qed.

Lemma digits_only_NilZero (c : ascii) (d : Decimal.uint) :
  is_digit c = false -> has_char c (NilZero.string_of_uint d) = false.
Proof.
  intros Hc. unfold NilZero.string_of_uint.
  destruct d eqn:E; try (rewrite <- E; apply (digits_only_uint c _ Hc)).
  cbn [has_char]. now rewrite (digit_neq c _ Hc) by reflexivity.
Qed.

Lemma digits_only_line (c : ascii) (line : N) :
  is_digit c = false -> has_char c (insert_text line) = false.
Proof. apply digits_only_NilZero. Qed.

Lemma nul_free_line (line : N) : nul_free (insert_text line) = true.
Proof.
  rewrite nul_free_has_char, digits_only_line; reflexivity.
Qed.

Lemma nul_free_int (i : Z) : nul_free (insert_text i) = true.
Proof.
  unfold insert_text, Insertable_int, NilZero.string_of_int.
  destruct (Z.to_int i) as [d|d]; cbn [nul_free];
    rewrite nul_free_has_char, digits_only_NilZero; reflexivity.
Qed.

Lemma nul_free_bool (b : bool) : nul_free (insert_text b) = true.
Proof. now destruct b. Qed.

Lemma to_uint_nonnil (n : N) : N.to_uint n <> Decimal.Nil.
Proof.
  destruct n as [|p]; [discriminate|].
  apply DecimalPos.Unsigned.to_uint_nonnil.
Qed.

Lemma insert_text_line_inj (l l' : N) :
  insert_text l = insert_text l' -> l = l'.
Proof.
  unfold insert_text, Insertable_ulong. intros E.
  apply DecimalN.Unsigned.to_uint_inj.
  assert (H : Some (N.to_uint l) = Some (N.to_uint l')).
  { rewrite <- (NilZero.usu _ (to_uint_nonnil l)),
            <- (NilZero.usu _ (to_uint_nonnil l')).
    now rewrite E. }
  now injection H.
Qed.

(** ** The marker *)

Lemma location_marker_text (SRC : bool) (l : N) (f fn : string) :
  location_marker SRC l f fn
  = if SRC
    then nl ++ "( " ++ f ++ ":" ++ insert_text l ++ " , in " ++ fn
            ++ "() )    ->  "
    else nl.
Proof. now destruct SRC. Qed.

Lemma location_marker_newline (SRC : bool) (l : N) (f fn : string) :
  exists rest, location_marker SRC l f fn = String newline rest.
Proof. unfold location_marker, nl. simpl. eauto. Qed.

Lemma nul_free_location_marker (SRC : bool) (l : N) (f fn : string) :
  nul_free f = true -> nul_free fn = true ->
  nul_free (location_marker SRC l f fn) = true.
Proof.
  intros Hf Hfn. rewrite location_marker_text. destruct SRC; [|reflexivity].
  now rewrite !nul_free_append, Hf, Hfn, nul_free_line.
Qed.

(** ** What each member does to the buffer *)

Lemma insert_text_string (s : string) : insert_text s = s.
Proof. reflexivity. Qed.

Lemma operator_lshift_desc {T : Type} `{Insertable T}
    (this : ThrowStream) (rhs : T) :
  _desc (this << rhs)%stream = _desc this ++ insert_text rhs.
Proof. reflexivity. Qed.

(** [Append] writes the marker, once, behind what the buffer held. *)
Lemma Append_desc (SRC : bool) (this : ThrowStream) (l : N) (f fn : string) :
  _desc (Append SRC this l f fn) = _desc this ++ location_marker SRC l f fn.
Proof.
  unfold Append, location_marker. f_equal.
  destruct SRC; [|reflexivity].
  cbn [str ss_insert stringstream_new]. rewrite !insert_text_string.
  autorewrite with strings. reflexivity.
Qed.

Lemma Append_exception_chain_desc (SRC : bool) (this other : ThrowStream)
    (l : N) (f fn : string) :
  _desc (Append_exception SRC this (Ex_ThrowStream other) l f fn)
  = _desc this ++ _desc other ++ location_marker SRC l f fn.
Proof.
  unfold Append_exception; simpl dynamic_cast_ThrowStream; cbv iota.
  rewrite Append_desc; simpl _desc. apply append_assoc.
Qed.

Lemma Append_exception_foreign_desc (SRC : bool) (this : ThrowStream)
    (m : string) (l : N) (f fn : string) :
  _desc (Append_exception SRC this (Ex_other m) l f fn)
  = _desc this ++ location_marker SRC l f fn ++ c_str m
      ++ location_marker SRC l f fn.
Proof.
  unfold Append_exception; simpl dynamic_cast_ThrowStream; cbv iota.
  rewrite Append_desc, operator_lshift_desc, Append_desc.
  cbn [exception_what]. rewrite insert_text_string.
  now autorewrite with strings.
Qed.

Lemma ThrowStream_new_desc (SRC : bool) (l : N) (f fn : string) :
  _desc (ThrowStream_new SRC l f fn) = location_marker SRC l f fn.
Proof. unfold ThrowStream_new. now rewrite Append_desc. Qed.

Lemma lshift_streamed_desc (this : ThrowStream) (v : streamed) :
  _desc (lshift_streamed this v) = _desc this ++ text_of v.
Proof. destruct v; reflexivity. Qed.

Lemma lshift_all_desc (vs : list streamed) : forall this : ThrowStream,
  _desc (lshift_all this vs) = _desc this ++ texts_of vs.
Proof.
  unfold lshift_all.
  induction vs as [|v vs IH]; intros this; simpl.
  - now rewrite append_nil_r.
  - rewrite IH, lshift_streamed_desc. apply append_assoc.
Qed.

Lemma ThrowStream_new_exception_chain_desc
    (SRC : bool) (chain : ThrowStream) (l : N) (f fn : string) :
  _desc (ThrowStream_new_exception SRC (Ex_ThrowStream chain) l f fn)
  = _desc chain ++ location_marker SRC l f fn.
Proof.
  unfold ThrowStream_new_exception. now rewrite Append_exception_chain_desc.
Qed.

Lemma ThrowStream_new_exception_foreign_desc
    (SRC : bool) (m : string) (l : N) (f fn : string) :
  _desc (ThrowStream_new_exception SRC (Ex_other m) l f fn)
  = location_marker SRC l f fn ++ c_str m ++ location_marker SRC l f fn.
Proof.
  unfold ThrowStream_new_exception.
  now rewrite Append_exception_foreign_desc.
Qed.

(** ** Construction *)

(** C1, as stated, fails: [what()] hands out [_desc.c_str()], so a file
    name holding a NUL ends the message there. *)
Lemma new_message_cut_at_NUL :
  what (ThrowStream_new true 1 ("a" ++ String NUL "b") "f") = nl ++ "( a"
  /\
  what (ThrowStream_new true 1 ("a" ++ String NUL "b") "f")
  <> nl ++ "( " ++ ("a" ++ String NUL "b") ++ ":" ++ insert_text 1%N
        ++ " , in " ++ "f" ++ "() )    ->  ".
Proof.
  split; [reflexivity|]. intros H. vm_compute in H. discriminate H.
Qed.

(** C1, amended.  For every line, file and function, the buffer of
    [ThrowStream(line, file, function)] is exactly a newline when
    [THROWSTREAM_EXCEPTIONSOURCE] is not defined, and exactly a newline
    followed by [( <file>:<line> , in <function>() )    ->  ] (the line in
    decimal) when it is defined.  The message [what()] is that same text
    when the flag is not defined, and when it is defined and neither the
    file nor the function name holds a NUL. *)
Theorem ThrowStream_new_message (line : N) (file function : string) :
  (_desc (ThrowStream_new false line file function) = nl
   /\ what (ThrowStream_new false line file function) = nl)
  /\
  _desc (ThrowStream_new true line file function)
  = nl ++ "( " ++ file ++ ":" ++ insert_text line ++ " , in " ++ function
       ++ "() )    ->  "
  /\
  (nul_free file = true -> nul_free function = true ->
   what (ThrowStream_new true line file function)
   = nl ++ "( " ++ file ++ ":" ++ insert_text line ++ " , in " ++ function
        ++ "() )    ->  ").
Proof.
  split; [split | split].
  - apply (ThrowStream_new_desc false).
  - unfold what. now rewrite (ThrowStream_new_desc false).
  - apply (ThrowStream_new_desc true).
  - intros Hf Hfn. unfold what. rewrite (ThrowStream_new_desc true).
    apply c_str_nul_free.
    exact (nul_free_location_marker true line file function Hf Hfn).
Qed.

Lemma ThrowStream_new_message_witness :
  what (ThrowStream_new true 10 "a.txt" "f")
  = nl ++ "( " ++ "a.txt" ++ ":" ++ insert_text 10%N ++ " , in " ++ "f"
       ++ "() )    ->  ".
Proof.
  apply (proj2 (proj2 (ThrowStream_new_message 10 "a.txt" "f")));
    reflexivity.
Defined.

Example new_detail_off :
  what (ThrowStream_new false 10 "a.txt" "f") = nl.
Proof. reflexivity. Qed.

Example new_detail_on :
  what (ThrowStream_new true 10 "a.txt" "f")
  = nl ++ "( a.txt:10 , in f() )    ->  ".
Proof. reflexivity. Qed.

(** C2, as stated, fails: a chain whose buffer holds a NUL (here streamed
    in as a character) keeps its message when it is wrapped; the new marker
    is in the buffer but behind the NUL. *)
Lemma chain_message_cut_at_NUL :
  what (ThrowStream_new_exception true
          (Ex_ThrowStream (ThrowStream_new true 1 "a" "f" << NUL)%stream)
          2 "b" "g")
  <> what (ThrowStream_new true 1 "a" "f" << NUL)%stream
     ++ nl ++ "( b:2 , in g() )    ->  ".
Proof.
  intros H. vm_compute in H. discriminate H.
Qed.

(** C2, amended.  Building a [ThrowStream] from an exception that is itself
    a [ThrowStream] gives a buffer equal to the full buffer of that chain
    followed by exactly one marker for the new frame; the member [Append]
    adds the same two pieces behind the buffer it is called on.  The
    message [what()] of the new object is the chain's message followed by
    that one marker when neither the chain's buffer nor the file or
    function name holds a NUL. *)
Theorem ThrowStream_new_from_chain
    (SRC : bool) (chain : ThrowStream) (l : N) (f fn : string) :
  let marker :=
    nl ++ (if SRC
           then "( " ++ f ++ ":" ++ insert_text l ++ " , in " ++ fn
                ++ "() )    ->  "
           else "") in
  _desc (ThrowStream_new_exception SRC (Ex_ThrowStream chain) l f fn)
  = _desc chain ++ marker
  /\
  (forall this : ThrowStream,
     _desc (Append_exception SRC this (Ex_ThrowStream chain) l f fn)
     = _desc this ++ _desc chain ++ marker)
  /\
  (nul_free (_desc chain) = true ->
   nul_free f = true -> nul_free fn = true ->
   what (ThrowStream_new_exception SRC (Ex_ThrowStream chain) l f fn)
   = what chain ++ marker).
Proof.
  intros marker. change marker with (location_marker SRC l f fn).
  split; [|split].
  - apply ThrowStream_new_exception_chain_desc.
  - intros this. apply Append_exception_chain_desc.
  - intros Hc Hf Hfn. unfold what.
    rewrite ThrowStream_new_exception_chain_desc.
    rewrite (c_str_nul_free (_desc chain) Hc). apply c_str_nul_free.
    now rewrite nul_free_append, Hc, nul_free_location_marker.
Qed.

Lemma ThrowStream_new_from_chain_witness :
  what (ThrowStream_new_exception true
          (Ex_ThrowStream (ThrowStream_new true 42 "calc.src" "Divide"))
          50 "calc.src" "MultiplyInverse")
  = what (ThrowStream_new true 42 "calc.src" "Divide")
    ++ nl ++ "( calc.src:50 , in MultiplyInverse() )    ->  ".
Proof.
  apply (proj2 (proj2 (ThrowStream_new_from_chain true
           (ThrowStream_new true 42 "calc.src" "Divide")
           50 "calc.src" "MultiplyInverse"))); reflexivity.
Defined.

(** C3, as stated, fails: with location detail, a file name holding a NUL
    ends the message inside the first marker; neither the foreign message
    nor the second marker is read. *)
Lemma foreign_message_cut_at_NUL :
  what (ThrowStream_new_exception true (Ex_other "boom")
          2 ("b" ++ String NUL "c") "g")
  <> (nl ++ "( " ++ ("b" ++ String NUL "c") ++ ":2 , in g() )    ->  ")
     ++ "boom"
     ++ (nl ++ "( " ++ ("b" ++ String NUL "c") ++ ":2 , in g() )    ->  ").
Proof.
  intros H. vm_compute in H. discriminate H.
Qed.

(** C3, amended.  Building a [ThrowStream] from any other exception, whose
    [what()] reads [m], gives a buffer made of the marker of the new frame,
    then [m], then the same marker a second time, and nothing after it.
    The message [what()] is that same text when neither the file nor the
    function name holds a NUL. *)
Theorem ThrowStream_new_from_foreign
    (SRC : bool) (ex : exception) (m : string) (l : N) (f fn : string) :
  dynamic_cast_ThrowStream ex = None -> exception_what ex = m ->
  let marker :=
    nl ++ (if SRC
           then "( " ++ f ++ ":" ++ insert_text l ++ " , in " ++ fn
                ++ "() )    ->  "
           else "") in
  _desc (ThrowStream_new_exception SRC ex l f fn) = marker ++ m ++ marker
  /\
  (nul_free f = true -> nul_free fn = true ->
   what (ThrowStream_new_exception SRC ex l f fn) = marker ++ m ++ marker).
Proof.
  intros Hcast Hm marker. change marker with (location_marker SRC l f fn).
  destruct ex as [ts | bytes]; [discriminate Hcast|].
  cbn [exception_what] in Hm. subst m.
  split; [apply ThrowStream_new_exception_foreign_desc|].
  intros Hf Hfn. unfold what.
  rewrite ThrowStream_new_exception_foreign_desc. apply c_str_nul_free.
  now rewrite !nul_free_append, nul_free_c_str, nul_free_location_marker.
Qed.

Lemma ThrowStream_new_from_foreign_witness :
  what (ThrowStream_new_exception true (Ex_other "boom") 7 "x.cpp" "g")
  = (nl ++ "( x.cpp:7 , in g() )    ->  ") ++ "boom"
    ++ (nl ++ "( x.cpp:7 , in g() )    ->  ").
Proof.
  apply (ThrowStream_new_from_foreign true (Ex_other "boom") "boom"
           7 "x.cpp" "g"); reflexivity.
Defined.

(** ** Frame annotations *)

(** C4, as stated, fails: absorbing a foreign exception "boom" at frame
    (2, "b", "g") adds the marker of that frame on both sides of the
    message, not once. *)
Lemma foreign_annotation_two_markers :
  ~ appends_one_marker true
      (ThrowStream_new true 1 "a" "f")
      (Ann_Append_exception (Ex_other "boom") 2 "b" "g").
Proof.
  intros [H | H]; vm_compute in H; discriminate H.
Qed.

(** C4, amended.  Write [marker] for the newline-prefixed location marker
    of the frame: a newline and, with location detail,
    [( <file>:<line> , in <function>() )    ->  ].
    [Append(line, file, function)] adds exactly one [marker] to the buffer.
    [Append(ex, ...)] with a [ThrowStream] adds that chain's buffer and
    then exactly one [marker].  [Append(ex, ...)] with any other exception
    adds [marker], the exception's message and [marker] again.  In each
    case the text of the [operator<<] calls that follow comes right after,
    in the order of the calls. *)
Theorem annotation_appends
    (SRC : bool) (this : ThrowStream) (l : N) (f fn : string)
    (vs : list streamed) :
  let marker :=
    nl ++ (if SRC
           then "( " ++ f ++ ":" ++ insert_text l ++ " , in " ++ fn
                ++ "() )    ->  "
           else "") in
  _desc (lshift_all (Append SRC this l f fn) vs)
    = _desc this ++ marker ++ texts_of vs
  /\
  (forall other : ThrowStream,
     _desc (lshift_all
              (Append_exception SRC this (Ex_ThrowStream other) l f fn) vs)
     = _desc this ++ _desc other ++ marker ++ texts_of vs)
  /\
  (forall m : string,
     _desc (lshift_all (Append_exception SRC this (Ex_other m) l f fn) vs)
     = _desc this ++ marker ++ exception_what (Ex_other m) ++ marker
         ++ texts_of vs).
Proof.
  intros marker. change marker with (location_marker SRC l f fn).
  split; [|split]; intros; rewrite lshift_all_desc.
  - rewrite Append_desc. now autorewrite with strings.
  - rewrite Append_exception_chain_desc. now autorewrite with strings.
  - rewrite Append_exception_foreign_desc. cbn [exception_what].
    now autorewrite with strings.
Qed.

(** ** The buffer only grows *)

Lemma run_desc (SRC : bool) (this : ThrowStream) (op : operation) :
  exists added : string, _desc (run SRC this op) = _desc this ++ added.
Proof.
  destruct op as [l f fn | [other | m] l f fn | v | ]; simpl run.
  - eexists. apply Append_desc.
  - eexists. apply Append_exception_chain_desc.
  - eexists. apply Append_exception_foreign_desc.
  - eexists. apply lshift_streamed_desc.
  - exists "". now rewrite append_nil_r.
Qed.

(** C5. After any call of the interface ([Append] with a location,
    [Append] with an exception, [operator<<], [what]) the previous contents
    of [_desc] are an unchanged prefix of the new contents. *)
Theorem desc_never_rewritten
    (SRC : bool) (this : ThrowStream) (op : operation) :
  prefix (_desc this) (_desc (run SRC this op)) = true
  /\ exists added : string, _desc (run SRC this op) = _desc this ++ added.
Proof.
  destruct (run_desc SRC this op) as [added E].
  split; [rewrite E; apply prefix_append | now exists added].
Qed.

(** The same over a whole run of calls: whatever a program does with an
    object, the buffer it had at some point stays in front. *)
Corollary desc_grows_over_calls (SRC : bool) (ops : list operation) :
  forall this : ThrowStream,
  exists added : string,
    _desc (fold_left (run SRC) ops this) = _desc this ++ added.
Proof.
  induction ops as [|op ops IH]; intros this; simpl.
  - exists "". now rewrite append_nil_r.
  - destruct (IH (run SRC this op)) as [later E].
    destruct (run_desc SRC this op) as [first E1].
    exists (first ++ later). now rewrite E, E1, append_assoc.
Qed.

(** ** Streaming text *)

(** C6, as stated, fails: after a NUL character is streamed in, the text
    streamed next is in the buffer but not in the message. *)
Lemma lshift_message_cut_at_NUL :
  what (ThrowStream_new true 1 "a" "f" << NUL << "x")%stream
  <> (what (ThrowStream_new true 1 "a" "f") ++ insert_text NUL)
     ++ insert_text "x".
Proof.
  intros H. vm_compute in H. discriminate H.
Qed.

(** C6, amended.  The buffer of [obj << v1 << v2] is the buffer of [obj]
    followed by the text of [v1] and then the text of [v2], with nothing
    in between.  The message [(obj << v1 << v2).what()] is [obj.what()]
    followed by the two texts when neither the buffer of [obj] nor the
    texts hold a NUL. *)
Theorem lshift_twice {T1 T2 : Type} `{Insertable T1} `{Insertable T2}
    (obj : ThrowStream) (v1 : T1) (v2 : T2) :
  _desc (obj << v1 << v2)%stream
  = (_desc obj ++ insert_text v1) ++ insert_text v2
  /\
  (nul_free (_desc obj) = true ->
   nul_free (insert_text v1) = true -> nul_free (insert_text v2) = true ->
   what (obj << v1 << v2)%stream
   = (what obj ++ insert_text v1) ++ insert_text v2).
Proof.
  split; [now rewrite !operator_lshift_desc|].
  intros Hobj H1 H2. unfold what. rewrite !operator_lshift_desc.
  rewrite (c_str_nul_free (_desc obj) Hobj). apply c_str_nul_free.
  now rewrite !nul_free_append, Hobj, H1, H2.
Qed.

Lemma lshift_twice_witness :
  what (ThrowStream_new true 21 "e.cpp" "Inverse" << "i = " << 0%Z)%stream
  = (what (ThrowStream_new true 21 "e.cpp" "Inverse") ++ insert_text "i = ")
    ++ insert_text 0%Z.
Proof.
  apply (lshift_twice (ThrowStream_new true 21 "e.cpp" "Inverse")
           "i = " 0%Z); reflexivity.
Defined.

(** C7. With the location detail enabled, [ThrowStream(42, "calc.src",
    "Divide") << "Error: I can't take the inverse of 0!"] has the message
    newline, [( calc.src:42 , in Divide() )    ->  Error: I can't take the
    inverse of 0!]; the buffer holds exactly that text. *)
Theorem example_Divide :
  what (ThrowStream_new true 42 "calc.src" "Divide"
          << "Error: I can't take the inverse of 0!")%stream
  = nl ++ "( calc.src:42 , in Divide() )    ->  Error: I can't take the inverse of 0!"
  /\
  _desc (ThrowStream_new true 42 "calc.src" "Divide"
           << "Error: I can't take the inverse of 0!")%stream
  = nl ++ "( calc.src:42 , in Divide() )    ->  Error: I can't take the inverse of 0!".
Proof. split; reflexivity. Qed.

(** The second scenario of the example program: that exception caught as
    [exception &] and wrapped at line 50 of [MultiplyInverse]. *)
Example example_MultiplyInverse :
  let thrown :=
    (ThrowStream_new true 42 "calc.src" "Divide"
       << "Error: I can't take the inverse of 0!")%stream in
  what (ThrowStream_new_exception true (Ex_ThrowStream thrown)
          50 "calc.src" "MultiplyInverse")
  = what thrown ++ nl ++ "( calc.src:50 , in MultiplyInverse() )    ->  ".
Proof. reflexivity. Qed.

(** ** Reading *)

(** C8. [what()] leaves the object as it was, and two calls in a row
    return the same string. *)
Theorem what_is_pure (this : ThrowStream) :
  snd (call_what this) = this
  /\ _desc (snd (call_what this)) = _desc this
  /\ fst (call_what (snd (call_what this))) = fst (call_what this).
Proof. repeat split. Qed.

(** ** Invariant of reachable objects *)

Lemma reachable_desc_newline (SRC : bool) (ts : ThrowStream) :
  reachable SRC ts ->
  exists rest : string, _desc ts = String newline rest.
Proof.
  induction 1 as [ l f fn
                 | other l f fn _ [r IH]
                 | m l f fn
                 | this l f fn _ [r IH]
                 | this other l f fn _ [r IH] _ _
                 | this m l f fn _ [r IH]
                 | this v _ [r IH] ].
  - rewrite ThrowStream_new_desc. apply location_marker_newline.
  - rewrite ThrowStream_new_exception_chain_desc, IH. simpl. eauto.
  - rewrite ThrowStream_new_exception_foreign_desc.
    destruct (location_marker_newline SRC l f fn) as [r ->]. simpl. eauto.
  - rewrite Append_desc, IH. simpl. eauto.
  - rewrite Append_exception_chain_desc, IH. simpl. eauto.
  - rewrite Append_exception_foreign_desc, IH. simpl. eauto.
  - rewrite lshift_streamed_desc, IH. simpl. eauto.
Qed.

(** C9. Every [ThrowStream] a program can hold has a non-empty message that
    starts with a newline. *)
Theorem reachable_starts_with_newline (SRC : bool) (ts : ThrowStream) :
  reachable SRC ts ->
  exists rest : string, what ts = String newline rest.
Proof.
  intros R. destruct (reachable_desc_newline SRC ts R) as [r E].
  unfold what. rewrite E. exists (c_str r). reflexivity.
Qed.

Lemma reachable_starts_with_newline_witness :
  exists rest : string,
    what (ThrowStream_new_exception true (Ex_other "boom") 3 "m.cpp" "main"
            << 5%N)%stream
    = String newline rest.
Proof.
  apply (reachable_starts_with_newline true).
  apply (reach_lshift true _ (Streamed N _ 5%N)).
  apply reach_new_foreign.
Defined.

(** ** Streaming one object into another *)

(** C10, as stated, fails: when the buffer of [ts1] holds a NUL, the
    message of [ts1 << ts2] is still that of [ts1] alone. *)
Lemma lshift_ThrowStream_cut_at_NUL :
  what ((ThrowStream_new true 1 "a" "f" << NUL)
          << ThrowStream_new true 2 "b" "g")%stream
  <> what (ThrowStream_new true 1 "a" "f" << NUL)%stream
     ++ what (ThrowStream_new true 2 "b" "g").
Proof.
  intros H. vm_compute in H. discriminate H.
Qed.

(** C10, amended.  [ts1 << ts2] adds the whole buffer of [ts2] to the
    buffer of [ts1], with no separator and no marker.  The message of the
    result is [ts1.what()] followed by [ts2.what()] when the buffer of
    [ts1] holds no NUL. *)
Theorem lshift_ThrowStream (ts1 ts2 : ThrowStream) :
  _desc (ts1 << ts2)%stream = _desc ts1 ++ _desc ts2
  /\
  (nul_free (_desc ts1) = true ->
   what (ts1 << ts2)%stream = what ts1 ++ what ts2).
Proof.
  split; [reflexivity|]. intros H1. unfold what.
  rewrite operator_lshift_desc.
  change (insert_text ts2) with (_desc ts2).
  now rewrite (c_str_append _ _ H1), (c_str_nul_free _ H1).
Qed.

Lemma lshift_ThrowStream_witness :
  what (ThrowStream_new true 1 "a" "f"
          << ThrowStream_new true 2 "b" "g")%stream
  = what (ThrowStream_new true 1 "a" "f")
    ++ what (ThrowStream_new true 2 "b" "g").
Proof.
  apply (lshift_ThrowStream (ThrowStream_new true 1 "a" "f")
           (ThrowStream_new true 2 "b" "g")).
  reflexivity.
Defined.

(** * Further properties of the class *)

(** ** Markers and frames *)

(** The marker of a build with location detail, cut before the function
    name and before the file name. *)
Lemma location_marker_cut (l : N) (f fn : string) :
  location_marker true l f fn
  = ((((nl ++ "( " ++ f) ++ String ":" (insert_text l)) ++ " , in")
       ++ String " " fn) ++ "() )    ->  ".
Proof.
  rewrite location_marker_text. autorewrite with strings. reflexivity.
Qed.



(** The restriction matters: a function name with blanks can imitate the
    end of a file name and a line number. *)
Example location_marker_ambiguous :
  location_marker true 1 "a" "b:2 , in c"
  = location_marker true 2 "a:1 , in b" "c".
Proof. reflexivity. Qed.

(** X2. Without location detail no line, file or function ever reaches the
    buffer: a whole run of calls gives the same object when every location
    argument is blanked. *)
Theorem no_location_without_detail (ops : list operation) :
  forall this : ThrowStream,
    fold_left (run false) ops this
    = fold_left (run false) (map erase_location ops) this.
Proof.
  induction ops as [|op ops IH]; intros this; simpl; [reflexivity|].
  rewrite IH. f_equal.
  destruct op as [l f fn | [other | m] l f fn | v | ]; reflexivity.
Qed.

(** ** Lines of the buffer *)

Lemma line_breaks_append (s t : string) :
  line_breaks (s ++ t) = line_breaks s + line_breaks t.
Proof. apply count_char_append. Qed.

Lemma line_breaks_line (line : N) : line_breaks (insert_text line) = 0.
Proof.
  apply has_char_count, digits_only_line. reflexivity.
Qed.

Lemma line_breaks_marker (SRC : bool) (l : N) (f fn : string) :
  line_breaks (location_marker SRC l f fn)
  = 1 + (if SRC then line_breaks f + line_breaks fn else 0).
Proof.
  rewrite location_marker_text. destruct SRC; [|reflexivity].
  rewrite !line_breaks_append, line_breaks_line.
  change (line_breaks nl) with 1. change (line_breaks "( ") with 0.
  change (line_breaks ":") with 0. change (line_breaks " , in ") with 0.
  change (line_breaks "() )    ->  ") with 0. lia.
Qed.

(** X3. Counted in the buffer, each [Append(line, file, function)] starts
    exactly one new line (more only if the file or function name itself
    holds line breaks); absorbing a chain adds the lines of the chain's
    buffer and one more; absorbing any other exception adds two lines and
    those of its message. *)
Theorem line_breaks_of_annotations
    (SRC : bool) (this : ThrowStream) (l : N) (f fn : string) :
  let frame := 1 + (if SRC then line_breaks f + line_breaks fn else 0) in
  line_breaks (_desc (Append SRC this l f fn))
    = line_breaks (_desc this) + frame
  /\
  (forall other : ThrowStream,
     line_breaks (_desc (Append_exception SRC this (Ex_ThrowStream other)
                           l f fn))
     = line_breaks (_desc this) + line_breaks (_desc other) + frame)
  /\
  (forall ex : exception,
     dynamic_cast_ThrowStream ex = None ->
     line_breaks (_desc (Append_exception SRC this ex l f fn))
     = line_breaks (_desc this) + line_breaks (exception_what ex)
       + 2 * frame).
Proof.
  intros frame. split; [|split]; intros.
  - rewrite Append_desc, line_breaks_append, line_breaks_marker. reflexivity.
  - rewrite Append_exception_chain_desc, !line_breaks_append,
      line_breaks_marker. fold frame. lia.
  - destruct ex as [ts | m]; [discriminate|].
    rewrite Append_exception_foreign_desc, !line_breaks_append,
      line_breaks_marker. cbn [exception_what]. fold frame. lia.
Qed.

Lemma line_breaks_of_annotations_witness :
  line_breaks
    (_desc (Append_exception true (ThrowStream_new true 1 "a" "f")
              (Ex_other "boom") 2 "b" "g"))
  = line_breaks (_desc (ThrowStream_new true 1 "a" "f"))
    + line_breaks (exception_what (Ex_other "boom")) + 2 * (1 + (0 + 0)).
Proof.
  apply (proj2 (proj2 (line_breaks_of_annotations true
           (ThrowStream_new true 1 "a" "f") 2 "b" "g"))).
  reflexivity.
Defined.

(** ** How the members compose *)

(** X4. Absorbing a [ThrowStream] is the same as streaming it in with
    [operator<<] and then calling [Append] for the location. *)
Theorem Append_exception_as_lshift
    (SRC : bool) (this other : ThrowStream) (l : N) (f fn : string) :
  Append_exception SRC this (Ex_ThrowStream other) l f fn
  = Append SRC (this << other)%stream l f fn.
Proof. reflexivity. Qed.

(** X5. Streaming the empty string changes nothing, and streaming two
    strings one after the other is streaming their concatenation. *)
Theorem lshift_strings (this : ThrowStream) (s1 s2 : string) :
  (this << "")%stream = this
  /\ (this << s1 << s2)%stream = (this << (s1 ++ s2))%stream.
Proof.
  split.
  - destruct this as [d]. unfold operator_lshift. simpl.
    now rewrite append_nil_r.
  - unfold operator_lshift. simpl.
    unfold insert_text, Insertable_string. now rewrite append_assoc.
Qed.

(** ** The origin of a chain *)

(** Every object a program can hold has a chain that began somewhere. *)
Lemma reachable_began_somewhere (SRC : bool) (ts : ThrowStream) :
  reachable SRC ts ->
  exists (l : N) (f fn : string), began_at SRC l f fn ts.
Proof.
  induction 1 as [ l f fn
                 | other l f fn _ (l0 & f0 & fn0 & IH)
                 | m l f fn
                 | this l f fn _ (l0 & f0 & fn0 & IH)
                 | this other l f fn _ (l0 & f0 & fn0 & IH) _ _
                 | this m l f fn _ (l0 & f0 & fn0 & IH)
                 | this v _ (l0 & f0 & fn0 & IH) ].
  - exists l, f, fn. constructor.
  - exists l0, f0, fn0. now constructor.
  - exists l, f, fn. constructor.
  - exists l0, f0, fn0. now constructor.
  - exists l0, f0, fn0. now constructor.
  - exists l0, f0, fn0. now constructor.
  - exists l0, f0, fn0. now constructor.
Qed.

(** X6. The buffer of an object starts with the complete marker of the
    frame where its chain began: the frame given to the constructor that
    built the first object of the chain from a location or from an
    exception that is no [ThrowStream].  Whatever is absorbed, appended or
    streamed later comes behind it. *)
Theorem chain_starts_with_origin_marker
    (SRC : bool) (l : N) (f fn : string) (ts : ThrowStream) :
  began_at SRC l f fn ts ->
  exists rest : string, _desc ts = location_marker SRC l f fn ++ rest.
Proof.
  induction 1 as [ | m
                 | other l' f' fn' _ [r IH]
                 | this l' f' fn' _ [r IH]
                 | this ex l' f' fn' _ [r IH]
                 | this v _ [r IH] ].
  - exists "". now rewrite ThrowStream_new_desc, append_nil_r.
  - eexists. apply ThrowStream_new_exception_foreign_desc.
  - eexists. rewrite ThrowStream_new_exception_chain_desc, IH.
    apply append_assoc.
  - eexists. rewrite Append_desc, IH. apply append_assoc.
  - destruct ex as [other | m]; eexists.
    + rewrite Append_exception_chain_desc, IH. apply append_assoc.
    + rewrite Append_exception_foreign_desc, IH. apply append_assoc.
  - eexists. rewrite lshift_streamed_desc, IH. apply append_assoc.
Qed.

Lemma chain_starts_with_origin_marker_witness :
  exists rest : string,
    _desc (Append true
             (ThrowStream_new_exception true
                (Ex_ThrowStream (ThrowStream_new true 21 "e.cpp" "Inverse"))
                34 "e.cpp" "MultiplyInverse")
             74 "e.cpp" "main")
    = location_marker true 21 "e.cpp" "Inverse" ++ rest.
Proof.
  apply (chain_starts_with_origin_marker true 21 "e.cpp" "Inverse").
  apply began_Append, began_new_chain, began_new.
Defined.

(** * The example program *)

(** Brings the buffer of an object built by a chain of calls into the
    form "text ++ text ++ ...". *)
Ltac flatten_desc :=
  repeat (rewrite operator_lshift_desc || rewrite Append_desc
          || rewrite insert_text_string);
  cbn [_desc ThrowStream_uninit];
  autorewrite with strings.

Section Example_program_facts.

Context {P : Platform}.
Variable SRC : bool.

(** Proves that a text put together from markers of this file, literals
    and numbers holds no NUL. *)
Ltac no_nul :=
  repeat rewrite nul_free_append;
  repeat rewrite nul_free_location_marker
    by (reflexivity || apply source_file_c_string);
  rewrite ?nul_free_bool, ?nul_free_int, ?double_text_c_string;
  reflexivity.

Lemma Inverse_nonzero (i : Z) :
  i <> 0%Z ->
  Inverse SRC i = Returned (double_div double_1_0 (double_of_int i)).
Proof.
  intros Hi. unfold Inverse.
  now destruct (Z.eqb_spec i 0) as [E|_]; [elim Hi|].
Qed.

Lemma rethrown_desc (a : double) (b : Z) :
  _desc (rethrown SRC a b) = multiply_inverse_trace SRC a b.
Proof.
  unfold rethrown. rewrite lshift_all_desc.
  rewrite ThrowStream_new_exception_chain_desc, lshift_all_desc.
  rewrite ThrowStream_new_desc.
  unfold multiply_inverse_trace, inverse_trace.
  cbn [texts_of text_of]. rewrite ?insert_text_string.
  now autorewrite with strings.
Qed.

Lemma nul_free_multiply_inverse_trace (a : double) (b : Z) :
  nul_free (multiply_inverse_trace SRC a b) = true.
Proof. unfold multiply_inverse_trace, inverse_trace. no_nul. Qed.

Lemma rethrown_what (a : double) (b : Z) :
  what (rethrown SRC a b) = multiply_inverse_trace SRC a b.
Proof.
  unfold what. rewrite rethrown_desc.
  apply c_str_nul_free, nul_free_multiply_inverse_trace.
Qed.

Lemma MultiplyInverse_any_order (left_first : bool) (a : double) (b : Z) :
  MultiplyInverse SRC left_first a b = MultiplyInverse SRC true a b.
Proof.
  destruct left_first; [reflexivity|].
  unfold MultiplyInverse, Inverse.
  destruct (int_of_double a =? 0)%Z, (b =? 0)%Z; reflexivity.
Qed.

Lemma MultiplyInverse_zero (left_first : bool) (a : double) (b : Z) :
  int_of_double a = 0%Z \/ b = 0%Z ->
  MultiplyInverse SRC left_first a b
  = Thrown (Ex_ThrowStream (rethrown SRC a b)).
Proof.
  intros H. rewrite MultiplyInverse_any_order.
  unfold MultiplyInverse, Inverse.
  destruct H as [-> | ->]; [reflexivity|].
  now destruct (int_of_double a =? 0)%Z.
Qed.

Lemma MultiplyInverse_nonzero (left_first : bool) (a : double) (b : Z) :
  int_of_double a <> 0%Z -> b <> 0%Z ->
  MultiplyInverse SRC left_first a b
  = Returned
      (double_mul
         (double_div double_1_0 (double_of_int (int_of_double a)))
         (double_div double_1_0 (double_of_int b))).
Proof.
  intros Ha Hb. rewrite MultiplyInverse_any_order. unfold MultiplyInverse.
  now rewrite (Inverse_nonzero _ Ha), (Inverse_nonzero _ Hb).
Qed.

(** X7. [MultiplyInverse] gives the same result, value or exception,
    whichever operand of [Inverse(a)*Inverse(b)] is evaluated first. *)
Theorem MultiplyInverse_order (a : double) (b : Z) :
  MultiplyInverse SRC true a b = MultiplyInverse SRC false a b.
Proof. symmetry. apply MultiplyInverse_any_order. Qed.

(** X8. When [a], taken as an [int], or [b] is zero, [MultiplyInverse]
    throws a [ThrowStream] with two frames: the one of line 21 in [Inverse]
    with its error text, then the one of line 34 in [MultiplyInverse]
    followed by the values of [a] and [b].  That text is the whole buffer
    and the message [what()]. *)
Theorem MultiplyInverse_throws (left_first : bool) (a : double) (b : Z) :
  int_of_double a = 0%Z \/ b = 0%Z ->
  exists ts : ThrowStream,
    MultiplyInverse SRC left_first a b = Thrown (Ex_ThrowStream ts)
    /\ what ts = multiply_inverse_trace SRC a b
    /\ _desc ts = multiply_inverse_trace SRC a b.
Proof.
  intros H. exists (rethrown SRC a b).
  split; [apply (MultiplyInverse_zero _ _ _ H)|].
  split; [apply rethrown_what | apply rethrown_desc].
Qed.

(** X9. When neither is zero, [MultiplyInverse] throws nothing and returns
    [(1.0/double(int(a))) * (1.0/double(b))]. *)
Theorem MultiplyInverse_returns (left_first : bool) (a : double) (b : Z) :
  int_of_double a <> 0%Z -> b <> 0%Z ->
  MultiplyInverse SRC left_first a b
  = Returned
      (double_mul
         (double_div double_1_0 (double_of_int (int_of_double a)))
         (double_div double_1_0 (double_of_int b))).
Proof. apply MultiplyInverse_nonzero. Qed.

(** ** [main] *)

Lemma ss_insert_str {T : Type} `{Insertable T} (ss : stringstream) (x : T) :
  str (ss <<< x)%stream = str ss ++ insert_text x.
Proof. reflexivity. Qed.

Lemma prompts_written (cout : ostream) :
  (cout <<< (nl ++ nl
             ++ "Enter two integers and I will calculate (1/a)*(1/b)"
             ++ nl)
        <<< (nl ++ "Enter an integer (a) :> ")
        <<< (nl ++ "Enter an integer (b) :> "))%stream
  = mkStringstream (str cout ++ prompts).
Proof.
  unfold ss_insert, prompts. cbn [str]. rewrite !insert_text_string.
  f_equal. now autorewrite with strings.
Qed.

(** X10. When either number could not be read, [main] prints, after the
    prompts, the exception text, made of the frame of line 53 with "Error
    parsing your numbers!" and one report per unusable stream, first [a]
    (line 62), then [b] (line 68), each with the three state bits as 0 or
    1; nothing of the computation is printed, and [main] returns 0. *)
Theorem main_reports_parse_errors
    (left_first text_first : bool) (ssa ssb : extraction) (cout : ostream) :
  unusable ssa || unusable ssb = true ->
  let result := main SRC left_first text_first ssa ssb cout in
  fst result = 0%Z
  /\ str (snd result)
     = str cout ++ prompts
       ++ (nl ++ nl ++ "Exception! what() = ")
       ++ (location_marker SRC 53 source_file "main"
           ++ "Error parsing your numbers!"
           ++ parse_report SRC source_file 62 "a" ssa
           ++ parse_report SRC source_file 68 "b" ssb)
       ++ (nl ++ nl).
Proof.
  intros H result. subst result. unfold main, main_try. cbv zeta.
  rewrite prompts_written.
  destruct (unusable ssa) eqn:Ua, (unusable ssb) eqn:Ub;
    try discriminate H; cbv beta iota zeta; cbn [fst snd];
    (split; [reflexivity|]);
    rewrite !ss_insert_str; cbn [str exception_what];
    unfold what, parse_report; rewrite ?Ua, ?Ub;
    unfold THROWSTREAMOBJAPPEND, THROWSTREAMOBJ, ThrowStream_new;
    flatten_desc;
    (rewrite c_str_nul_free by no_nul);
    autorewrite with strings; reflexivity.
Qed.

(** X11. When both numbers were read and one of them is zero, [main]
    prints, after the prompts, the exception text with the two frames of
    [Inverse] and [MultiplyInverse], and returns 0.  Whether the text
    "(1/a)*(1/b) = " comes out before it depends on where the compiler
    places the call. *)
Theorem main_reports_zero
    (left_first text_first : bool) (ssa ssb : extraction) (cout : ostream) :
  unusable ssa = false -> unusable ssb = false ->
  int_of_double (double_of_int (value ssa)) = 0%Z \/ value ssb = 0%Z ->
  let result := main SRC left_first text_first ssa ssb cout in
  fst result = 0%Z
  /\ str (snd result)
     = str cout ++ prompts
       ++ (if text_first then nl ++ nl ++ "(1/a)*(1/b) = " else "")
       ++ (nl ++ nl ++ "Exception! what() = ")
       ++ multiply_inverse_trace SRC (double_of_int (value ssa)) (value ssb)
       ++ (nl ++ nl).
Proof.
  intros Ua Ub Hz result. subst result. unfold main, main_try. cbv zeta.
  rewrite prompts_written, Ua, Ub. cbv beta iota zeta.
  rewrite (MultiplyInverse_zero _ _ _ Hz).
  split; [reflexivity|]. cbn [fst snd exception_what].
  rewrite rethrown_what.
  destruct text_first; rewrite !ss_insert_str; cbn [str];
    rewrite !insert_text_string; autorewrite with strings; reflexivity.
Qed.

(** X12. When both numbers were read and neither is zero, [main] prints,
    after the prompts, "(1/a)*(1/b) = " and the product of the two
    inverses, and returns 0; no exception text appears. *)
Theorem main_prints_product
    (left_first text_first : bool) (ssa ssb : extraction) (cout : ostream) :
  unusable ssa = false -> unusable ssb = false ->
  int_of_double (double_of_int (value ssa)) <> 0%Z -> value ssb <> 0%Z ->
  let result := main SRC left_first text_first ssa ssb cout in
  fst result = 0%Z
  /\ str (snd result)
     = str cout ++ prompts
       ++ (nl ++ nl ++ "(1/a)*(1/b) = ")
       ++ insert_text
            (double_mul
               (double_div double_1_0
                  (double_of_int
                     (int_of_double (double_of_int (value ssa)))))
               (double_div double_1_0 (double_of_int (value ssb))))
       ++ (nl ++ nl).
Proof.
  intros Ua Ub Ha Hb result. subst result. unfold main, main_try. cbv zeta.
  rewrite prompts_written, Ua, Ub. cbv beta iota zeta.
  rewrite (MultiplyInverse_nonzero _ _ _ Ha Hb).
  split; [reflexivity|]. cbn [fst snd].
  rewrite !ss_insert_str; cbn [str].
  rewrite !insert_text_string. now autorewrite with strings.
Qed.

End Example_program_facts.

(** ** The program on a platform of exact fractions *)

Lemma fraction_text_c_string (q : fraction) :
  nul_free (insert_text q) = true.
Proof.
  unfold insert_text at 1, Insertable_fraction.
  now rewrite !nul_free_append, !nul_free_int.
Qed.

(** A platform to run the model on. *)
Definition Platform_fractions : Platform := {|
  double := fraction;
  double_1_0 := (1, 1)%Z;
  double_of_int := fun i => (i, 1%Z);
  int_of_double := fun q => Z.quot (fst q) (snd q);
  double_div := fun x y => (fst x * snd y, snd x * fst y)%Z;
  double_mul := fun x y => (fst x * fst y, snd x * snd y)%Z;
  Insertable_double := Insertable_fraction;
  source_file := "ThrowStream_example.cpp";
  source_file_c_string := eq_refl;
  double_text_c_string := fraction_text_c_string
|}.

Lemma MultiplyInverse_throws_witness :
  exists ts : ThrowStream,
    @MultiplyInverse Platform_fractions true true (0, 1)%Z 5%Z
    = Thrown (Ex_ThrowStream ts)
    /\ what ts = @multiply_inverse_trace Platform_fractions true (0, 1)%Z 5%Z
    /\ _desc ts
       = @multiply_inverse_trace Platform_fractions true (0, 1)%Z 5%Z.
Proof.
  apply (@MultiplyInverse_throws Platform_fractions true true (0, 1)%Z 5%Z).
  left. reflexivity.
Defined.

Lemma MultiplyInverse_returns_witness :
  @MultiplyInverse Platform_fractions true false (2, 1)%Z 5%Z
  = Returned (1, 10)%Z.
Proof.
  apply (@MultiplyInverse_returns Platform_fractions true false (2, 1)%Z 5%Z);
    discriminate.
Defined.

Lemma main_reports_parse_errors_witness :
  let result :=
    @main Platform_fractions false true true
      (mkExtraction 0 false true false) (mkExtraction 7 false false true)
      stringstream_new in
  fst result = 0%Z
  /\ str (snd result)
     = prompts ++ nl ++ nl ++ "Exception! what() = "
       ++ nl ++ "Error parsing your numbers!"
       ++ nl ++ "Error parsing integer 'a': bad, fail, eof = 010"
       ++ nl ++ nl.
Proof.
  apply (@main_reports_parse_errors Platform_fractions false true true
           (mkExtraction 0 false true false)
           (mkExtraction 7 false false true) stringstream_new).
  reflexivity.
Defined.

Lemma main_reports_zero_witness :
  let result :=
    @main Platform_fractions true true false
      (mkExtraction 4 false false true) (mkExtraction 0 false false true)
      stringstream_new in
  fst result = 0%Z
  /\ str (snd result)
     = prompts ++ nl ++ nl ++ "Exception! what() = "
       ++ nl ++ "( ThrowStream_example.cpp:21 , in Inverse() )    ->  "
       ++ "Error: I can't take the inverse of 0!"
       ++ nl ++ "( ThrowStream_example.cpp:34 , in MultiplyInverse() )    ->  "
       ++ "Called from MultiplyInverse: a = 4/1 b = 0"
       ++ nl ++ nl.
Proof.
  apply (@main_reports_zero Platform_fractions true true false
           (mkExtraction 4 false false true)
           (mkExtraction 0 false false true) stringstream_new);
    try reflexivity.
  right. reflexivity.
Defined.

Lemma main_prints_product_witness :
  let result :=
    @main Platform_fractions true true true
      (mkExtraction 4 false false true) (mkExtraction (-2) false false true)
      stringstream_new in
  fst result = 0%Z
  /\ str (snd result)
     = prompts ++ nl ++ nl ++ "(1/a)*(1/b) = 1/-8" ++ nl ++ nl.
Proof.
  apply (@main_prints_product Platform_fractions true true true
           (mkExtraction 4 false false true)
           (mkExtraction (-2) false false true) stringstream_new);
    try reflexivity; discriminate.
Defined.

(** * The macros *)

(** X13. Appending to an existing object adds to its buffer exactly the
    buffer the matching constructor would give a new object: this holds
    for [THROWSTREAMOBJAPPEND] against [THROWSTREAMOBJ] and for
    [THROWSTREAMOBJAPPENDCOPY] against [THROWSTREAMOBJCOPY], whatever kind
    of exception is copied. *)
Theorem append_macros_as_constructors
    (SRC : bool) (ex : ThrowStream) (ey : exception)
    (l : N) (f fn : string) :
  _desc (THROWSTREAMOBJAPPEND SRC ex l f fn)
    = _desc ex ++ _desc (THROWSTREAMOBJ SRC l f fn)
  /\
  _desc (THROWSTREAMOBJAPPENDCOPY SRC ex ey l f fn)
    = _desc ex ++ _desc (THROWSTREAMOBJCOPY SRC ey l f fn).
Proof.
  unfold THROWSTREAMOBJAPPEND, THROWSTREAMOBJ, THROWSTREAMOBJAPPENDCOPY,
    THROWSTREAMOBJCOPY.
  split; [now rewrite Append_desc, ThrowStream_new_desc|].
  destruct ey as [other | m].
  - now rewrite Append_exception_chain_desc,
      ThrowStream_new_exception_chain_desc.
  - now rewrite Append_exception_foreign_desc,
      ThrowStream_new_exception_foreign_desc.
Qed.

(** X14. What is streamed after a throwing macro is part of the exception
    thrown: [THROWSTREAM << v1 << ... << vn] throws a [ThrowStream] whose
    buffer is the marker of the place followed by the texts of [v1] to
    [vn] in order, and [THROWSTREAMAPPEND(ex) << v1 << ... << vn] one whose
    buffer is that of [ThrowStream(ex, ...)] followed by the same texts. *)
Theorem throwing_macros_carry_text
    (A : Type) (SRC : bool) (ex : exception) (l : N) (f fn : string)
    (vs : list streamed) :
  (exists ts : ThrowStream,
     @THROWSTREAM A SRC l f fn vs = Thrown (Ex_ThrowStream ts)
     /\ _desc ts
        = (nl ++ (if SRC
                  then "( " ++ f ++ ":" ++ insert_text l ++ " , in " ++ fn
                       ++ "() )    ->  "
                  else ""))
          ++ texts_of vs)
  /\
  (exists ts : ThrowStream,
     @THROWSTREAMAPPEND A SRC ex l f fn vs = Thrown (Ex_ThrowStream ts)
     /\ _desc ts
        = _desc (ThrowStream_new_exception SRC ex l f fn) ++ texts_of vs).
Proof.
  split; eexists; (split; [reflexivity|]); rewrite lshift_all_desc.
  - now rewrite ThrowStream_new_desc.
  - reflexivity.
Qed.
